(** * Blog-writer swarm: a shallow embedding of [blog_writer_swarm.ipynb]

    The notebook defines one document sink ([complete_blog_post]), five
    instruction generators, six parameterless functions and five agents of
    the [swarm] package.  The embedding follows the code cells of the
    notebook: Python strings are Rocq strings (the ASCII fragment), a
    [dict] is a [gmap], a function that does I/O is a state transformer
    over the interpreter state that can also raise. *)

From stdpp Require Import gmap strings list fin_maps pretty.
From Stdlib Require Import Ascii.

(** ** Python strings *)

Module PyStr.

Definition nl : string := String (ascii_of_nat 10) "".
Definition tab : string := String (ascii_of_nat 9) "".

(** [str.lower()] on one ASCII character: 'A'..'Z' move to 'a'..'z'. *)
Definition ascii_lower (c : ascii) : ascii :=
  let n := N_of_ascii c in
  if ((65 <=? n) && (n <=? 90))%N then ascii_of_N (n + 32) else c.

(** [s.lower()], character by character.  On text outside ASCII Python
    follows the Unicode tables, which the embedding does not have: it
    leaves such characters as they are, so what is stated about the result
    of [lower] is stated for ASCII strings ([is_ascii]). *)
Fixpoint str_lower (s : string) : string :=
  match s with
  | "" => ""
  | String c s' => String (ascii_lower c) (str_lower s')
  end.

(** [s.replace(old, new)] for a non-empty [old]: scan left to right; at an
    occurrence of [old] emit [new] and skip the rest of the occurrence. *)
Fixpoint replace_scan (old new : string) (skip : nat) (s : string) : string :=
  match s with
  | "" => ""
  | String c s' =>
      match skip with
      | S k => replace_scan old new k s'
      | O =>
          if String.prefix old s
          then new +:+ replace_scan old new (String.length old - 1) s'
          else String c (replace_scan old new 0 s')
      end
  end.

(** For the empty [old] Python puts [new] before every character and at
    the end. *)
Fixpoint after_each (new s : string) : string :=
  match s with
  | "" => ""
  | String c s' => String c (new +:+ after_each new s')
  end.

Definition str_replace (old new s : string) : string :=
  match old with
  | "" => new +:+ after_each new s
  | _ => replace_scan old new 0 s
  end.

(** [needle in hay]. *)
Fixpoint str_contains (needle hay : string) : bool :=
  String.prefix needle hay
  || match hay with
     | "" => false
     | String _ hay' => str_contains needle hay'
     end.

(** The characters of [string.whitespace]. *)
Definition is_whitespace (c : ascii) : bool :=
  let n := N_of_ascii c in
  ((9 <=? n) && (n <=? 13) || (n =? 32))%N.

Definition is_upper (c : ascii) : bool :=
  let n := N_of_ascii c in
  ((65 <=? n) && (n <=? 90))%N.

Fixpoint map_chars (f : ascii → ascii) (s : string) : string :=
  match s with
  | "" => ""
  | String c s' => String (f c) (map_chars f s')
  end.

Fixpoint all_chars (p : ascii → bool) (s : string) : bool :=
  match s with
  | "" => true
  | String c s' => p c && all_chars p s'
  end.

(** [s.isascii()]: every character is below 128.  These are the strings on
    which [str_lower] is Python's [lower]. *)
Definition is_ascii (s : string) : bool :=
  all_chars (λ c, (N_of_ascii c <? 128)%N) s.

(** [c in s] for one character. *)
Definition has_char (c : ascii) (s : string) : bool :=
  negb (all_chars (λ d, negb (Ascii.eqb d c)) s).

(** The string has an embedded null character. *)
Definition has_nul (s : string) : bool := has_char (ascii_of_nat 0) s.

End PyStr.
Import PyStr.

(** ** Python values *)

(** The values a context dictionary or a tool-call argument holds (they
    come from JSON): strings, integers, booleans and [None]. *)
Inductive value :=
  | VStr (s : string)
  | VInt (z : Z)
  | VBool (b : bool)
  | VNone.

(** [d.get(key, default)]: never raises. *)
Definition dict_get (d : gmap string value) (key : string) (dflt : value) : value :=
  default dflt (d !! key).

(** The module-level names bound to [Agent] objects.  A function body that
    mentions one of them reads the global when it is called, so the
    functions may be defined before the agents. *)
Inductive AgentRef :=
  | admin_agent
  | planner_agent
  | researcher_agent
  | writer_agent
  | editor_agent.

#[global] Instance AgentRef_eq_dec : EqDecision AgentRef.
Proof. solve_decision. Defined.

(** What the functions of the notebook return: a string or an agent. *)
Inductive retval :=
  | Str (s : string)
  | AgentObj (a : AgentRef).

Inductive exn :=
  | TypeError
  | AttributeError
  | ValueError
  | OSError.

Inductive outcome (A : Type) :=
  | Return (a : A)
  | Raise (e : exn).
Arguments Return {A} a.
Arguments Raise {A} e.

#[global] Instance outcome_ret : MRet outcome := λ A a, Return a.

#[global] Instance outcome_bind : MBind outcome := λ A B k m,
  match m with
  | Return a => k a
  | Raise e => Raise e
  end.

(** Ten to the power of [sys.get_int_max_str_digits()], which is 4300
    unless the interpreter is configured otherwise: the least integer with
    more digits than may be converted to text. *)
Definition int_max_str_bound : Z := ((10 ^ 100) ^ 43)%Z.

(** [format(v, '')], what an f-string field [{v}] renders.  CPython (3.11
    and later, and the security releases of 3.7 to 3.10) raises
    [ValueError] for an integer of more than 4300 digits. *)
Definition py_format (v : value) : outcome string :=
  match v with
  | VStr s => Return s
  | VInt z =>
      if (int_max_str_bound <=? Z.abs z)%Z then Raise ValueError
      else Return (pretty z)
  | VBool true => Return "True"
  | VBool false => Return "False"
  | VNone => Return "None"
  end.

(** ** Interpreter state *)

(** Modelled from the spec: one turn of the conversation history (section
    3): role, content, optional tool-call record.  The history is kept by
    the run loop of the [swarm] package, which the notebook imports. *)
Record Turn := mkTurn {
  role : string;
  content : string;
  tool_call : option string
}.

(** Modelled from the spec: the states of the Dispatch Loop (section 4.4). *)
Inductive LoopState :=
  | AWAITING_INPUT
  | GENERATING
  | RESOLVING_TOOL
  | DONE
  | FAILED.

(** Modelled from the spec: the error taxonomy (section 7). *)
Inductive ErrorKind :=
  | UnknownAgent
  | UnauthorizedToolCall
  | MalformedToolCall
  | ToolExecutionError
  | SinkWriteError
  | BackendUnavailable
  | Cancelled.

(** Everything a call can see or change.  The first four fields are the
    process environment: the files, which paths the store accepts for
    writing (permissions and directories, which the program never
    changes), the lines printed, and the paths [open] was called with, in
    order.  A file is its path string: two spellings of one file ("x.md"
    and "./x.md", or a link) are two entries.  A file that was opened can
    be written and closed: a disk that fills up is not modelled.  The last
    five are the session as the spec has it (section 3: active agent,
    context, history; section 4.4: the state of the loop; section 7: the
    error reported), which the run loop of the [swarm] package holds while
    it calls the functions of the notebook. *)
Record State := mkState {
  fs : gmap string string;
  accepts : string → bool;
  stdout : list string;
  open_calls : list string;
  active : AgentRef;
  context : gmap string value;
  history : list Turn;
  phase : LoopState;
  failure : option ErrorKind
}.

Definition set_fs (f : gmap string string → gmap string string) (st : State) : State :=
  mkState (f (fs st)) (accepts st) (stdout st) (open_calls st)
          (active st) (context st) (history st) (phase st) (failure st).

Definition set_stdout (f : list string → list string) (st : State) : State :=
  mkState (fs st) (accepts st) (f (stdout st)) (open_calls st)
          (active st) (context st) (history st) (phase st) (failure st).

Definition set_open_calls (f : list string → list string) (st : State) : State :=
  mkState (fs st) (accepts st) (stdout st) (f (open_calls st))
          (active st) (context st) (history st) (phase st) (failure st).

Definition set_active (a : AgentRef) (st : State) : State :=
  mkState (fs st) (accepts st) (stdout st) (open_calls st)
          a (context st) (history st) (phase st) (failure st).

Definition set_history (f : list Turn → list Turn) (st : State) : State :=
  mkState (fs st) (accepts st) (stdout st) (open_calls st)
          (active st) (context st) (f (history st)) (phase st) (failure st).

Definition set_phase (p : LoopState) (st : State) : State :=
  mkState (fs st) (accepts st) (stdout st) (open_calls st)
          (active st) (context st) (history st) p (failure st).

Definition set_failure (e : ErrorKind) (st : State) : State :=
  mkState (fs st) (accepts st) (stdout st) (open_calls st)
          (active st) (context st) (history st) (phase st) (Some e).

(** The paths on which [open(path, "w")] succeeds: the path has no null
    character and the store accepts it. *)
Definition writable (st : State) (path : string) : bool :=
  negb (has_nul path) && accepts st path.

(** ** The monad of Python calls: state passing with exceptions *)

Definition Py (A : Type) : Type := State → outcome A * State.

#[global] Instance Py_ret : MRet Py := λ A a st, (Return a, st).

#[global] Instance Py_bind : MBind Py := λ A B k m st,
  match m st with
  | (Return a, st') => k a st'
  | (Raise e, st') => (Raise e, st')
  end.

Definition raise {A : Type} (e : exn) : Py A := λ st, (Raise e, st).

(** A computation that does not touch the state. *)
Definition lift {A : Type} (o : outcome A) : Py A := λ st, (o, st).

(** [open(path, "w", ...)]: the call is recorded; a path with a null
    character is a [ValueError] before the store is asked; on a path the
    store accepts the file is created or truncated; otherwise [OSError]
    is raised. *)
Definition open_w (path : string) : Py unit := λ st,
  let st' := set_open_calls (λ l, l ++ [path]) st in
  if has_nul path then (Raise ValueError, st')
  else if accepts st path
  then (Return (), set_fs (insert path "") st')
  else (Raise OSError, st').

(** [file.write(data)] on the file opened at [path]: text is appended at the
    end of what was written so far; anything but a [str] is a [TypeError]. *)
Definition file_write (path : string) (data : value) : Py unit :=
  match data with
  | VStr s => λ st, (Return (), set_fs (alter (λ old, old +:+ s) path) st)
  | _ => raise TypeError
  end.

(** [print(line)]. *)
Definition print (line : string) : Py unit := λ st,
  (Return (), set_stdout (λ l, l ++ [line]) st).

(** [v.lower()]: only a [str] has the method. *)
Definition method_lower (v : value) : Py string :=
  match v with
  | VStr s => mret (str_lower s)
  | _ => raise AttributeError
  end.

(** ** Function objects *)

Record PyFunction := mkFunction {
  fn_name : string;
  fn_params : list string;
  fn_body : gmap string value → Py retval
}.

(** A call with keyword arguments, as the run loop makes it from the
    arguments of the tool call: every parameter must be given and nothing
    else, or Python raises [TypeError] before the body runs. *)
Definition call (f : PyFunction) (kwargs : gmap string value) : Py retval :=
  if bool_decide (dom kwargs = list_to_set (fn_params f))
  then fn_body f kwargs
  else raise TypeError.

Definition def0 (nm : string) (body : Py retval) : PyFunction :=
  mkFunction nm [] (λ _, body).

Definition def2 (nm p1 p2 : string) (body : value → value → Py retval) : PyFunction :=
  mkFunction nm [p1; p2]
    (λ kw, match kw !! p1, kw !! p2 with
           | Some a, Some b => body a b
           | _, _ => raise TypeError
           end).

(** ** The notebook: the document sink *)

Definition complete_blog_post : PyFunction :=
  def2 "complete_blog_post" "title" "content" (λ title content,
    lowered ← method_lower title;
    let filename := str_replace " " "-" lowered +:+ ".md" in
    open_w filename;;
    file_write filename content;;
    shown ← lift (py_format title);
    print ("Blog post '" +:+ shown +:+ "' has been written to " +:+ filename);;
    mret (Str "Task completed")).

(** ** The notebook: instruction generators *)

Definition admin_instructions (context_variables : gmap string value)
    : outcome string :=
  let topic := dict_get context_variables "topic" (VStr "No topic provided") in
  shown ← py_format topic;
  mret (
  "You are the Admin Agent overseeing the blog post project on the topic: '"
    +:+ shown +:+ "'." +:+ nl +:+
  "Your responsibilities include initiating the project, providing guidance, and reviewing the final content."
    +:+ nl +:+
  "Once you've set the topic, call the function to transfer to the planner agent.").

Definition planner_instructions (context_variables : gmap string value)
    : outcome string :=
  let topic := dict_get context_variables "topic" (VStr "No topic provided") in
  shown ← py_format topic;
  mret (
  "You are the Planner Agent. Based on the following topic: '"
    +:+ shown +:+ "'" +:+ nl +:+
  "Organize the content into topics and sections with clear headings that will each be individually researched as points in the greater blog post."
    +:+ nl +:+
  "Once the outline is ready, call the researcher agent. ").

Definition researcher_instructions (context_variables : gmap string value)
    : outcome string :=
  mret (
  "You are the Researcher Agent. your task is to provide dense context and information on the topics outlined by the previous planner agent."
    +:+ nl +:+
  "This research will serve as the information that will be formatted into a body of a blog post. Provide comprehensive research like notes for each of the sections outlined by the planner agent."
    +:+ nl +:+
  "Once your research is complete, transfer to the writer agent").

Definition writer_instructions (context_variables : gmap string value)
    : outcome string :=
  mret (
  "You are the Writer Agent. using the prior information write a clear blog post following the outline from the planner agent. "
    +:+ nl +:+
  "    Summarise and include as much information relevant from the research into the blog post."
    +:+ nl +:+
  "    The blog post should be quite large as the context the context provided should be quite dense."
    +:+ nl +:+
  "Write clear, engaging content for each section."
    +:+ nl +:+
  "Once the draft is complete, call the function to transfer to the Editor Agent.").

Definition editor_instructions (context_variables : gmap string value)
    : outcome string :=
  mret (
  "You are the Editor Agent. Review and edit th prior blog post completed by the writer agent."
    +:+ nl +:+
  "Make necessary corrections and improvements."
    +:+ nl +:+
  "Once editing is complete, call the function to complete the blog post").

(** ** The notebook: hand-off functions *)

Definition transfer_to_researcher : PyFunction :=
  def0 "transfer_to_researcher" (mret (AgentObj researcher_agent)).

Definition transfer_to_planner : PyFunction :=
  def0 "transfer_to_planner" (mret (AgentObj planner_agent)).

Definition transfer_to_writer : PyFunction :=
  def0 "transfer_to_writer" (mret (AgentObj writer_agent)).

Definition transfer_to_editor : PyFunction :=
  def0 "transfer_to_editor" (mret (AgentObj editor_agent)).

Definition transfer_to_admin : PyFunction :=
  def0 "transfer_to_admin" (mret (AgentObj admin_agent)).

Definition complete_blog : PyFunction :=
  def0 "complete_blog" (mret (Str "Task completed")).

(** ** The notebook: the agents *)

Record Agent := mkAgent {
  name : string;
  instructions : gmap string value → outcome string;
  functions : list PyFunction
}.

(** The object each module-level agent name is bound to. *)
Definition globals (r : AgentRef) : Agent :=
  match r with
  | admin_agent =>
      {| name := "Admin Agent";
         instructions := admin_instructions;
         functions := [transfer_to_planner] |}
  | planner_agent =>
      {| name := "Planner Agent";
         instructions := planner_instructions;
         functions := [transfer_to_researcher] |}
  | researcher_agent =>
      {| name := "Researcher Agent";
         instructions := researcher_instructions;
         functions := [transfer_to_writer] |}
  | writer_agent =>
      {| name := "Writer Agent";
         instructions := writer_instructions;
         functions := [transfer_to_editor] |}
  | editor_agent =>
      {| name := "Editor Agent";
         instructions := editor_instructions;
         functions := [complete_blog_post] |}
  end.

(** The roster, in the order the notebook creates the agents. *)
Definition roster : list AgentRef :=
  [admin_agent; planner_agent; researcher_agent; writer_agent; editor_agent].

(** The functions that return an agent. *)
Definition handoff_tools : list PyFunction :=
  [transfer_to_planner; transfer_to_researcher; transfer_to_writer;
   transfer_to_editor; transfer_to_admin].

(** The only function of an agent that has exactly one. *)
Definition sole_tool (a : AgentRef) : option PyFunction :=
  match functions (globals a) with
  | [f] => Some f
  | _ => None
  end.

(** The agent that the sole function of [a] returns, called without
    arguments in state [st], when it returns one. *)
Definition handoff_target (a : AgentRef) (st : State) : option AgentRef :=
  match sole_tool a with
  | Some f =>
      match (call f ∅ st).1 with
      | Return (AgentObj b) => Some b
      | _ => None
      end
  | None => None
  end.

(** The agents reached by following sole hand-off functions, at most [n]. *)
Fixpoint handoff_chain (n : nat) (a : AgentRef) (st : State) : list AgentRef :=
  match n with
  | O => []
  | S k =>
      match handoff_target a st with
      | Some b => b :: handoff_chain k b st
      | None => []
      end
  end.

(** [a] has a function that, called without arguments, returns [b]. *)
Definition hands_off (a b : AgentRef) : Prop :=
  ∃ f st, f ∈ functions (globals a) ∧ (call f ∅ st).1 = Return (AgentObj b).

(** The position of an agent in the roster. *)
Definition rank (a : AgentRef) : nat :=
  match a with
  | admin_agent => 0
  | planner_agent => 1
  | researcher_agent => 2
  | writer_agent => 3
  | editor_agent => 4
  end.

(** ** The dispatch loop *)

(** Modelled from the spec: the outcome of a tool call (section 4.3). *)
Inductive ToolOutcome :=
  | Data (v : string)
  | Handoff (next : AgentRef)
  | Terminal (result : string).

Definition is_live (st : State) : bool :=
  match phase st with
  | DONE | FAILED => false
  | _ => true
  end.

Definition record (r c : string) (st : State) : State :=
  set_history (λ h, h ++ [mkTurn r c None]) st.

(** Modelled from the spec: the transitions out of [RESOLVING_TOOL] of the
    Dispatch Loop (section 4.4).  The loop is the run loop of the [swarm]
    package, which the notebook imports and does not define.  [Data] and
    [Handoff] append their record to the history and go on generating,
    [Handoff] with the active agent swapped; [Terminal] ends the session;
    a session that is [DONE] or [FAILED] takes no further transition. *)
Definition apply_outcome (o : ToolOutcome) (st : State) : State :=
  if is_live st then
    match o with
    | Data v => set_phase GENERATING (record "tool" v st)
    | Handoff a =>
        set_phase GENERATING (set_active a (record "tool" (name (globals a)) st))
    | Terminal _ => set_phase DONE st
    end
  else st.

Fixpoint run_outcomes (os : list ToolOutcome) (st : State) : State :=
  match os with
  | [] => st
  | o :: os' => run_outcomes os' (apply_outcome o st)
  end.

(** Modelled from the spec: the tags of the Tool Resolver (sections 3 and
    4.3), which the [swarm] package does not have: a function that returns
    an agent is a [HANDOFF]; of the others the sink is the [TERMINAL] one. *)
Definition classify (f : PyFunction) (r : retval) : ToolOutcome :=
  match r with
  | AgentObj a => Handoff a
  | Str s =>
      if String.eqb (fn_name f) "complete_blog_post" then Terminal s else Data s
  end.

(** Modelled from the spec: the error kinds of section 7 for an exception
    that leaves a tool: a failed [open] is the sink's write error. *)
Definition error_kind (e : exn) : ErrorKind :=
  match e with
  | OSError => SinkWriteError
  | _ => ToolExecutionError
  end.

(** Modelled from the spec: a fatal error moves the session to [FAILED] and
    keeps the error kind and the last active agent (section 7). *)
Definition fail (k : ErrorKind) (st : State) : State :=
  set_phase FAILED (set_failure k st).

Definition find_tool (nm : string) (a : AgentRef) : option PyFunction :=
  List.find (λ f, String.eqb (fn_name f) nm) (functions (globals a)).

(** Modelled from the spec: one tool call resolved by the Tool Resolver for
    the Dispatch Loop (sections 4.3, 4.4 and 7).  A name outside the active
    agent's functions and a missing parameter are recoverable: a turn that
    explains is appended and the same agent generates again.  Unrecognized
    arguments are dropped.  The function is called once; an exception that
    leaves it is fatal, nothing is called again. *)
Definition resolve (nm : string) (args : gmap string value) (st : State) : State :=
  if is_live st then
    match find_tool nm (active st) with
    | None => set_phase GENERATING (record "system" "UnauthorizedToolCall" st)
    | Some f =>
        let kwargs := filter (λ kv, kv.1 ∈ fn_params f) args in
        if bool_decide (dom kwargs = list_to_set (fn_params f)) then
          match call f kwargs st with
          | (Return r, st') => apply_outcome (classify f r) st'
          | (Raise e, st') => fail (error_kind e) st'
          end
        else set_phase GENERATING (record "system" "MalformedToolCall" st)
    end
  else st.

(** The loop driven by a backend that always asks for the sole function of
    the active agent, without arguments. *)
Definition drive_step (st : State) : State :=
  match sole_tool (active st) with
  | Some f => resolve (fn_name f) ∅ st
  | None => st
  end.

Fixpoint drive (n : nat) (st : State) : State :=
  match n with
  | O => st
  | S k => drive k (drive_step st)
  end.

(** ** Names used by the statements *)

(** The value of the local [filename] of [complete_blog_post]. *)
Definition artifact_name (title : string) : string :=
  str_replace " " "-" (str_lower title) +:+ ".md".

(** The identifier as the code derives it, character by character: a space
    becomes the separator, any other character is lower-cased. *)
Definition space_slug (title : string) : string :=
  map_chars (λ c, if Ascii.eqb c " " then "-"%char else ascii_lower c) title.

(** The identifier as section 4.5 words it: lower case, with every
    whitespace character replaced by the separator. *)
Definition whitespace_slug (title : string) : string :=
  map_chars (λ c, if is_whitespace c then "-"%char else ascii_lower c) title.

(** The keyword arguments of a call of the sink. *)
Definition sink_args (title content : value) : gmap string value :=
  {[ "title" := title; "content" := content ]}.

(** The line the sink prints. *)
Definition sink_line (title : string) : string :=
  "Blog post '" +:+ title +:+ "' has been written to " +:+ artifact_name title.

(** A session at its start: entry agent admin, the topic of the notebook's
    demo in the context, a store that accepts every path, nothing written
    yet. *)
Definition demo_state : State :=
  mkState ∅ (λ _, true) [] [] admin_agent
    {[ "topic" := VStr "Impact of LLMs on healthcare" ]} [] AWAITING_INPUT None.

(** A session in which the editor is active and is generating, on a store
    that refuses every write. *)
Definition readonly_state : State :=
  mkState ∅ (λ _, false) [] [] editor_agent
    {[ "topic" := VStr "Impact of LLMs on healthcare" ]} [] GENERATING None.

(** The values that [format] renders: every one but the integers of more
    than 4300 digits. *)
Definition renderable (v : value) : bool :=
  match v with
  | VInt z => negb (int_max_str_bound <=? Z.abs z)%Z
  | _ => true
  end.

(** A context with a topic that cannot be rendered. *)
Definition huge_topic : gmap string value :=
  {[ "topic" := VInt (10 ^ 4300) ]}.

(** [isinstance(v, str)]. *)
Definition is_str (v : value) : bool :=
  match v with
  | VStr _ => true
  | _ => false
  end.

(** A title made of ASCII letters, digits, spaces, hyphens and underscores
    only: its file name is a plain name in the working directory, and two
    such names that differ are two files. *)
Definition is_plain (title : string) : bool :=
  all_chars (λ c,
    let n := N_of_ascii c in
    ((48 <=? n) && (n <=? 57) || (65 <=? n) && (n <=? 90)
     || (97 <=? n) && (n <=? 122)
     || (n =? 32) || (n =? 45) || (n =? 95))%N) title.

(** A title that is already in the form of an identifier: ASCII, with no
    space and no upper-case letter. *)
Definition is_slug (title : string) : bool :=
  is_ascii title
  && all_chars (λ c, negb (Ascii.eqb c " ") && negb (is_upper c)) title.

(** ** Facts about strings *)

Section StringFacts.

Lemma prefix_empty (s : string) : String.prefix "" s = true.
Proof. by destruct s. Qed.

Lemma prefix_append (p q : string) : String.prefix p (p +:+ q) = true.
Proof.
  induction p as [|c p IH]; simpl; [apply prefix_empty|].
  destruct (ascii_dec c c); [exact IH | congruence].
Qed.

Lemma prefix_split (p s : string) :
  String.prefix p s = true → ∃ q, s = p +:+ q.
Proof.
  revert s; induction p as [|c p IH]; intros s H.
  - exists s. reflexivity.
  - destruct s as [|d s]; [discriminate H|]. cbn [String.prefix] in H.
    destruct (ascii_dec c d) as [->|]; [|discriminate H].
    destruct (IH _ H) as [q ->]. exists q. reflexivity.
Qed.

Lemma str_contains_unfold (n h : string) :
  str_contains n h
  = String.prefix n h
    || match h with
       | "" => false
       | String _ h' => str_contains n h'
       end.
Proof. by destruct h. Qed.

Lemma str_contains_here (n post : string) : str_contains n (n +:+ post) = true.
Proof. by rewrite str_contains_unfold, prefix_append. Qed.

Lemma str_contains_later (n pre h : string) :
  str_contains n h = true → str_contains n (pre +:+ h) = true.
Proof.
  intros H; induction pre as [|c pre IH]; [exact H|].
  rewrite str_contains_unfold.
  change (String c pre +:+ h) with (String c (pre +:+ h)). cbv iota.
  rewrite IH. apply orb_true_r.
Qed.

Lemma str_contains_middle (n pre post : string) :
  str_contains n (pre +:+ n +:+ post) = true.
Proof. apply str_contains_later, str_contains_here. Qed.

(** [str_contains] finds genuine occurrences only. *)
Lemma str_contains_sound (n h : string) :
  str_contains n h = true → ∃ pre post, h = pre +:+ n +:+ post.
Proof.
  induction h as [|c h IH]; rewrite str_contains_unfold; intros H;
    apply orb_true_iff in H as [H|H]; try discriminate H.
  - destruct (prefix_split _ _ H) as [q ->]. exists "", q. reflexivity.
  - destruct (prefix_split _ _ H) as [q Hq]. exists "", q. exact Hq.
  - destruct (IH H) as (pre & post & ->). exists (String c pre), post.
    reflexivity.
Qed.

Lemma ascii_lower_space (c : ascii) : ascii_lower c = " "%char → c = " "%char.
Proof. destruct c as [[] [] [] [] [] [] [] []]; vm_compute; congruence. Qed.

Lemma ascii_lower_not_upper (c : ascii) : is_upper (ascii_lower c) = false.
Proof. by destruct c as [[] [] [] [] [] [] [] []]. Qed.

Lemma replace_scan_space (s : string) :
  replace_scan " " "-" 0 s
  = map_chars (λ c, if Ascii.eqb c " " then "-"%char else c) s.
Proof.
  induction s as [|c s IH]; [done|].
  cbn [replace_scan map_chars String.prefix String.length].
  destruct (Ascii.eqb_spec c " "%char) as [->|Hne].
  - destruct (ascii_dec " " " "); [|congruence].
    rewrite prefix_empty. simpl. by rewrite IH.
  - destruct (ascii_dec " " c) as [<-|]; [congruence|]. by rewrite IH.
Qed.

(** The code's [lower] followed by [replace] is the character map. *)
Lemma slug_of_code (title : string) :
  str_replace " " "-" (str_lower title) = space_slug title.
Proof.
  unfold str_replace, space_slug. rewrite replace_scan_space.
  induction title as [|c t IH]; [done|].
  cbn [str_lower map_chars]. rewrite IH. f_equal.
  destruct (Ascii.eqb_spec c " "%char) as [->|Hne]; [done|].
  destruct (Ascii.eqb_spec (ascii_lower c) " "%char) as [E|]; [|done].
  by apply ascii_lower_space in E.
Qed.

Lemma map_chars_length (f : ascii → ascii) (s : string) :
  String.length (map_chars f s) = String.length s.
Proof. induction s; simpl; congruence. Qed.

Lemma space_slug_clean (title : string) :
  all_chars (λ c, negb (Ascii.eqb c " ") && negb (is_upper c)) (space_slug title)
  = true.
Proof.
  induction title as [|c t IH]; [done|].
  unfold space_slug in *. cbn [map_chars all_chars]. rewrite IH, andb_true_r.
  destruct (Ascii.eqb_spec c " "%char) as [->|Hne]; [done|].
  rewrite ascii_lower_not_upper, andb_true_r.
  destruct (Ascii.eqb_spec (ascii_lower c) " "%char) as [E|]; [|done].
  by apply ascii_lower_space in E.
Qed.

End StringFacts.

(** ** Running the sink *)

Section Sink.

Lemma sink_args_dom (title content : value) :
  dom (sink_args title content) = list_to_set ["title"; "content"].
Proof.
  unfold sink_args. rewrite dom_insert_L, dom_singleton_L. set_solver.
Qed.

(** One call of the sink, step by step. *)
Lemma call_sink (title content : value) (st : State) :
  call complete_blog_post (sink_args title content) st
  = match title with
    | VStr t =>
        let st1 := set_open_calls (λ l, l ++ [artifact_name t]) st in
        if writable st (artifact_name t) then
          match content with
          | VStr body =>
              (Return (Str "Task completed"),
               set_stdout (λ l, l ++ [sink_line t])
                 (set_fs (insert (artifact_name t) body) st1))
          | _ => (Raise TypeError, set_fs (insert (artifact_name t) "") st1)
          end
        else
          (Raise (if has_nul (artifact_name t) then ValueError else OSError),
           st1)
    | _ => (Raise AttributeError, st)
    end.
Proof.
  unfold call. rewrite bool_decide_eq_true_2 by apply sink_args_dom.
  cbn [complete_blog_post def2 fn_body].
  assert (sink_args title content !! "title" = Some title) as ->
    by (unfold sink_args; by simplify_map_eq).
  assert (sink_args title content !! "content" = Some content) as ->
    by (unfold sink_args; by simplify_map_eq).
  destruct title as [t| | |]; try reflexivity.
  unfold mbind, Py_bind, method_lower, mret, Py_ret, open_w, writable.
  fold (artifact_name t).
  destruct (has_nul (artifact_name t)); [reflexivity|].
  destruct (accepts st (artifact_name t)); [|reflexivity].
  destruct content as [body| | |]; try reflexivity.
  cbn. unfold set_stdout, set_fs, set_open_calls; cbn.
  by rewrite alter_insert_eq.
Qed.

(** A call never changes which paths can be written. *)
Lemma call_sink_writable (title content : value) (st : State) :
  writable (call complete_blog_post (sink_args title content) st).2 = writable st.
Proof.
  rewrite call_sink. destruct title; try reflexivity. cbn zeta.
  destruct (writable st _); [destruct content|]; reflexivity.
Qed.

End Sink.

(** ** Instruction generators *)

Section Rendering.

Lemma py_format_renderable (v : value) :
  renderable v = true ↔ ∃ s, py_format v = Return s.
Proof.
  destruct v as [s|z|[]|]; cbn [renderable py_format];
    try (split; eauto; fail).
  destruct (int_max_str_bound <=? Z.abs z)%Z; cbn [negb]; split; eauto.
  - discriminate.
  - by intros [s ?].
Qed.

Lemma py_format_not_renderable (v : value) :
  renderable v = false → py_format v = Raise ValueError.
Proof.
  destruct v as [s|z|[]|]; cbn [renderable py_format]; try discriminate.
  by destruct (int_max_str_bound <=? Z.abs z)%Z.
Qed.

Lemma int_max_str_bound_eq : int_max_str_bound = (10 ^ 4300)%Z.
Proof.
  unfold int_max_str_bound. rewrite <- Z.pow_mul_r by lia. f_equal.
Qed.

Lemma int_max_str_bound_large : (4300 < int_max_str_bound)%Z.
Proof. rewrite int_max_str_bound_eq. apply Z.pow_gt_lin_r; lia. Qed.

(** The limit is on the number of digits: 4300 nines render, with either
    sign, and a one followed by 4300 zeros does not. *)
Lemma renderable_at_the_limit :
  renderable (VInt (10 ^ 4300 - 1)) = true
  ∧ renderable (VInt (- (10 ^ 4300 - 1))) = true
  ∧ renderable (VInt (10 ^ 4300)) = false.
Proof.
  pose proof int_max_str_bound_large as L. cbn [renderable].
  rewrite <- int_max_str_bound_eq. generalize dependent int_max_str_bound.
  intros b L. rewrite !negb_true_iff, negb_false_iff, !Z.leb_gt, Z.leb_le. lia.
Qed.

(** Integers of a few digits render as their decimal text. *)
Lemma py_format_small_int (z : Z) :
  (Z.abs z ≤ 4300)%Z → py_format (VInt z) = Return (pretty z).
Proof.
  intros H. pose proof int_max_str_bound_large as L. cbn [py_format].
  by rewrite (proj2 (Z.leb_gt _ _)) by lia.
Qed.

Lemma py_format_huge : py_format (VInt (10 ^ 4300)) = Raise ValueError.
Proof.
  apply py_format_not_renderable, renderable_at_the_limit.
Qed.

(** A topic that does not render makes both generators raise. *)
Lemma generators_raise (c : gmap string value) (v : value) (e : exn) :
  c !! "topic" = Some v → py_format v = Raise e →
  admin_instructions c = Raise e ∧ planner_instructions c = Raise e.
Proof.
  intros T F. unfold admin_instructions, planner_instructions, dict_get.
  rewrite T. cbn [default from_option id]. by rewrite F.
Qed.

End Rendering.

(** C3: for every context in which the key "topic" maps to a string [X],
    the instruction generator of the entry agent (admin) returns a string
    that contains [X] verbatim. *)
Theorem admin_instructions_contain_topic (c : gmap string value) (X : string) :
  c !! "topic" = Some (VStr X) →
  ∃ s, instructions (globals admin_agent) c = Return s
       ∧ admin_instructions c = Return s
       ∧ str_contains X s = true
       ∧ ∃ pre post, s = pre +:+ X +:+ post.
Proof.
  intros H. cbn [globals instructions].
  unfold admin_instructions, dict_get. rewrite H. cbn [default py_format].
  eexists. split; [reflexivity|]. split; [reflexivity|].
  split; [apply str_contains_middle|]. eauto.
Qed.

Lemma admin_instructions_contain_topic_witness :
  context demo_state !! "topic" = Some (VStr "Impact of LLMs on healthcare")
  ∧ ∃ s, instructions (globals admin_agent) (context demo_state) = Return s
         ∧ str_contains "Impact of LLMs on healthcare" s = true.
Proof.
  split; [reflexivity|].
  destruct (admin_instructions_contain_topic (context demo_state)
              "Impact of LLMs on healthcare" eq_refl) as (s & E & _ & C & _).
  exists s. by split.
Defined.

(** C7 as stated fails: with an integer of 4301 digits under "topic" the
    generators of the admin and of the planner raise [ValueError] and
    return no string. *)
Lemma huge_topic_raises :
  admin_instructions huge_topic = Raise ValueError
  ∧ planner_instructions huge_topic = Raise ValueError
  ∧ ¬ ∃ s, instructions (globals admin_agent) huge_topic = Return s.
Proof.
  destruct (generators_raise huge_topic (VInt (10 ^ 4300)) ValueError
              (lookup_singleton_eq _ _) py_format_huge) as [A P].
  split; [exact A|]. split; [exact P|].
  intros [s H]. change (admin_instructions huge_topic = Return s) in H.
  rewrite A in H. discriminate H.
Qed.

(** C7, amended: for every context in which "topic" is absent or holds a
    value that can be rendered (a string, a boolean, [None], an integer of
    at most 4300 digits) each agent's instruction generator returns a
    string; when the key is absent the generators of admin and planner
    return what they return for the topic "No topic provided", which the
    result contains; the generators of the researcher, the writer and the
    editor return a string for every context. *)
Theorem instruction_generators_return (a : AgentRef) (c : gmap string value) :
  (∀ v, c !! "topic" = Some v → renderable v = true) →
  (∃ s : string,
     instructions (globals a) c = Return s
     ∧ s ≠ ""
     ∧ (c !! "topic" = None →
        instructions (globals a) {[ "topic" := VStr "No topic provided" ]}
        = Return s
        ∧ (a = admin_agent ∨ a = planner_agent →
           str_contains "No topic provided" s = true)))
  ∧ (a ≠ admin_agent → a ≠ planner_agent →
     ∀ c', ∃ s', instructions (globals a) c' = Return s').
Proof.
  intros R. split.
  - assert (∃ shown, py_format (dict_get c "topic" (VStr "No topic provided"))
                     = Return shown
                     ∧ (c !! "topic" = None → shown = "No topic provided"))
      as (shown & F & D).
    { unfold dict_get. destruct (c !! "topic") as [v|] eqn:T; cbn [default].
      - destruct (proj1 (py_format_renderable v) (R v eq_refl)) as [s E].
        exists s. by split.
      - by eexists. }
    destruct a; cbn [globals instructions].
    + unfold admin_instructions. rewrite F. eexists.
      split; [reflexivity|]. split; [discriminate|].
      intros N. rewrite (D N). split; [reflexivity|].
      intros _. apply str_contains_middle.
    + unfold planner_instructions. rewrite F. eexists.
      split; [reflexivity|]. split; [discriminate|].
      intros N. rewrite (D N). split; [reflexivity|].
      intros _. apply str_contains_middle.
    + eexists. split; [reflexivity|]. split; [discriminate|].
      intros _. split; [reflexivity|]. by intros [|].
    + eexists. split; [reflexivity|]. split; [discriminate|].
      intros _. split; [reflexivity|]. by intros [|].
    + eexists. split; [reflexivity|]. split; [discriminate|].
      intros _. split; [reflexivity|]. by intros [|].
  - intros A P c'. destruct a; try done; by eexists.
Qed.

Lemma instruction_generators_return_witness :
  (∀ v, (∅ : gmap string value) !! "topic" = Some v → renderable v = true)
  ∧ ∃ s, planner_instructions ∅ = Return s
         ∧ str_contains "No topic provided" s = true.
Proof.
  assert (∀ v, (∅ : gmap string value) !! "topic" = Some v → renderable v = true)
    as R by (intros v H; discriminate H).
  split; [exact R|].
  destruct (instruction_generators_return planner_agent ∅ R)
    as [(s & E & _ & H) _].
  exists s. split; [exact E|].
  apply H; [reflexivity | right; reflexivity].
Defined.

(** C9: the instruction generators of the researcher, the writer and the
    editor do not depend on the context: on any two contexts each returns
    the same string. *)
Theorem later_instructions_ignore_context (c1 c2 : gmap string value) :
  researcher_instructions c1 = researcher_instructions c2
  ∧ writer_instructions c1 = writer_instructions c2
  ∧ editor_instructions c1 = editor_instructions c2
  ∧ instructions (globals researcher_agent) c1
    = instructions (globals researcher_agent) c2
  ∧ instructions (globals writer_agent) c1
    = instructions (globals writer_agent) c2
  ∧ instructions (globals editor_agent) c1
    = instructions (globals editor_agent) c2.
Proof. repeat split. Qed.

(** ** The document sink *)

(** C4 as stated fails: a tab is whitespace, and the name of the file the
    sink opens for the title "A<tab>B" still has the tab, while the
    name with every whitespace character replaced is "a-b.md". *)
Lemma tab_survives_in_artifact_name :
  let title := "A" +:+ tab +:+ "B" in
  whitespace_slug title +:+ ".md" = "a-b.md"
  ∧ open_calls (call complete_blog_post
                  (sink_args (VStr title) (VStr "x")) demo_state).2
    = ["a" +:+ tab +:+ "b.md"]
  ∧ open_calls (call complete_blog_post
                  (sink_args (VStr title) (VStr "x")) demo_state).2
    ≠ open_calls demo_state ++ [whitespace_slug title +:+ ".md"].
Proof.
  cbv zeta. rewrite call_sink.
  split; [reflexivity|]. split; [reflexivity|].
  vm_compute. discriminate.
Qed.

(** C4, amended: for every ASCII title the sink opens exactly one file,
    named by the title lower-cased with every space character replaced by
    "-" (other characters, whitespace included, are kept), followed by
    ".md"; the identifier is as long as the title and has neither a space
    nor an upper-case letter; the file of that name is the one that comes
    to exist. *)
Theorem artifact_name_from_title (title : string) (content : value) (st : State) :
  is_ascii title = true →
  let r := call complete_blog_post (sink_args (VStr title) content) st in
  artifact_name title = space_slug title +:+ ".md"
  ∧ open_calls r.2 = open_calls st ++ [space_slug title +:+ ".md"]
  ∧ String.length (space_slug title) = String.length title
  ∧ all_chars (λ c, negb (Ascii.eqb c " ") && negb (is_upper c))
      (space_slug title) = true
  ∧ dom (fs r.2)
    = (if writable st (space_slug title +:+ ".md")
       then {[ space_slug title +:+ ".md" ]} ∪ dom (fs st)
       else dom (fs st)).
Proof.
  intros _. cbv zeta. rewrite call_sink. cbv zeta.
  assert (artifact_name title = space_slug title +:+ ".md") as E
    by (unfold artifact_name; by rewrite slug_of_code).
  rewrite E. split; [done|].
  split; [by destruct (writable st _); [destruct content|]|].
  split; [apply map_chars_length|]. split; [apply space_slug_clean|].
  destruct (writable st _); [|done].
  destruct content; cbn; apply dom_insert_L.
Qed.

Lemma artifact_name_from_title_witness :
  is_ascii "Impact of LLMs on healthcare" = true
  ∧ artifact_name "Impact of LLMs on healthcare"
    = space_slug "Impact of LLMs on healthcare" +:+ ".md"
  ∧ open_calls (call complete_blog_post
                  (sink_args (VStr "Impact of LLMs on healthcare") (VStr "..."))
                  demo_state).2
    = ["impact-of-llms-on-healthcare.md"].
Proof.
  split; [reflexivity|].
  destruct (artifact_name_from_title "Impact of LLMs on healthcare" (VStr "...")
              demo_state eq_refl) as (E & O & _).
  split; [exact E | exact O].
Defined.

(** C5: the editor's only function is the sink; called with a title and a
    content on a store that accepts the file, it leaves a file whose body is
    exactly the content, under the name derived from exactly that title,
    reports that title, and returns the string "Task completed". *)
Theorem editor_tool_persists_pair (title body : string) (st : State) :
  writable st (artifact_name title) = true →
  let r := call complete_blog_post (sink_args (VStr title) (VStr body)) st in
  sole_tool editor_agent = Some complete_blog_post
  ∧ r.1 = Return (Str "Task completed")
  ∧ fs r.2 = <[artifact_name title := body]> (fs st)
  ∧ fs r.2 !! artifact_name title = Some body
  ∧ stdout r.2 = stdout st ++ [sink_line title].
Proof.
  intros W. cbv zeta. rewrite call_sink. cbv zeta. rewrite W. cbn.
  repeat split. apply lookup_insert_eq.
Qed.

Lemma editor_tool_persists_pair_witness :
  writable demo_state (artifact_name "Impact of LLMs on healthcare") = true
  ∧ fs (call complete_blog_post
          (sink_args (VStr "Impact of LLMs on healthcare") (VStr "..."))
          demo_state).2
    !! "impact-of-llms-on-healthcare.md" = Some "...".
Proof.
  split; [reflexivity|].
  apply (editor_tool_persists_pair "Impact of LLMs on healthcare" "..." demo_state).
  reflexivity.
Defined.

(** C10: calling the sink a second time with the same arguments returns
    what the first call returned and leaves the files as the first call
    left them; a file that already exists under the derived name is
    replaced without an error. *)
Theorem sink_idempotent (title content : value) (st : State) :
  let r1 := call complete_blog_post (sink_args title content) st in
  let r2 := call complete_blog_post (sink_args title content) r1.2 in
  r2.1 = r1.1
  ∧ fs r2.2 = fs r1.2
  ∧ ∀ t body old,
      title = VStr t → content = VStr body →
      fs st !! artifact_name t = Some old →
      writable st (artifact_name t) = true →
      r1.1 = Return (Str "Task completed")
      ∧ fs r1.2 !! artifact_name t = Some body.
Proof.
  cbv zeta. split; [|split].
  - rewrite (call_sink title content (call _ _ st).2), call_sink_writable.
    rewrite call_sink. destruct title as [t| | |]; try reflexivity. cbv zeta.
    destruct (writable st _); [destruct content|]; reflexivity.
  - rewrite (call_sink title content (call _ _ st).2), call_sink_writable.
    rewrite call_sink. destruct title as [t| | |]; try reflexivity. cbv zeta.
    destruct (writable st _); [destruct content|]; cbn;
      try reflexivity; apply insert_insert_eq.
  - intros t body old -> -> _ W. rewrite call_sink. cbv zeta. rewrite W. cbn.
    split; [reflexivity | apply lookup_insert_eq].
Qed.

Lemma sink_idempotent_witness :
  let st := set_fs (insert "a-b.md" "old") demo_state in
  fs st !! artifact_name "A b" = Some "old"
  ∧ writable st (artifact_name "A b") = true
  ∧ fs (call complete_blog_post (sink_args (VStr "A b") (VStr "new")) st).2
    !! artifact_name "A b" = Some "new".
Proof.
  cbv zeta. split; [reflexivity|]. split; [reflexivity|].
  eapply (sink_idempotent (VStr "A b") (VStr "new")); reflexivity.
Defined.

(** ** Resolving tool calls *)

Section Resolve.

Lemma dead_resolve (nm : string) (args : gmap string value) (st : State) :
  is_live st = false → resolve nm args st = st.
Proof. intros H. unfold resolve. by rewrite H. Qed.

Lemma dead_apply_outcome (o : ToolOutcome) (st : State) :
  is_live st = false → apply_outcome o st = st.
Proof. intros H. unfold apply_outcome. by rewrite H. Qed.



(** A parameterless function of the active agent that returns agent [b]. *)
Lemma resolve_transfer (nm : string) (b : AgentRef) (st : State) :
  is_live st = true →
  find_tool nm (active st) = Some (def0 nm (mret (AgentObj b))) →
  resolve nm ∅ st = apply_outcome (Handoff b) st.
Proof.
  intros L F. unfold resolve. rewrite L, F. cbv beta iota zeta.
  cbn [def0 fn_params]. rewrite map_filter_empty.
  rewrite bool_decide_eq_true_2 by (by rewrite dom_empty_L).
  unfold call. cbn [def0 fn_params fn_body].
  by rewrite bool_decide_eq_true_2 by (by rewrite dom_empty_L).
Qed.

End Resolve.



Ltac unfold_transfers :=
  unfold transfer_to_planner, transfer_to_researcher, transfer_to_writer,
    transfer_to_editor, transfer_to_admin, complete_blog in *.

Section Handoffs.

Lemma call_def0 (nm : string) (r : retval) (st : State) :
  call (def0 nm (mret r)) ∅ st = (Return r, st).
Proof.
  unfold call. cbn [def0 fn_params fn_body].
  by rewrite bool_decide_eq_true_2 by (by rewrite dom_empty_L).
Qed.

Lemma call_def0_args (nm : string) (body : Py retval)
    (kwargs : gmap string value) (st : State) :
  kwargs ≠ ∅ → call (def0 nm body) kwargs st = (Raise TypeError, st).
Proof.
  intros H. unfold call. cbn [def0 fn_params fn_body].
  rewrite bool_decide_eq_false_2; [done|].
  intros E. by apply H, dom_empty_iff_L.
Qed.

(** The sink cannot be called without its two arguments. *)
Lemma call_sink_no_args (st : State) :
  call complete_blog_post ∅ st = (Raise TypeError, st).
Proof.
  unfold call. rewrite bool_decide_eq_false_2; [done|].
  rewrite dom_empty_L. cbn. set_solver.
Qed.

Lemma hands_off_next (a b : AgentRef) : hands_off a b → rank b = S (rank a).
Proof.
  intros (f & st & Hin & Hcall).
  destruct a; cbn [globals functions] in Hin;
    apply list_elem_of_singleton in Hin; subst f; unfold_transfers;
    rewrite ?call_def0, ?call_sink_no_args in Hcall;
    cbn in Hcall; by simplify_eq.
Qed.

Lemma next_hands_off (a b : AgentRef) : rank b = S (rank a) → hands_off a b.
Proof.
  intros H. destruct a, b; try discriminate H;
    eexists _, demo_state; (split; [apply list_elem_of_singleton; reflexivity|]);
    apply (f_equal fst (call_def0 _ _ _)).
Qed.

Lemma tc_hands_off_rank (a b : AgentRef) : tc hands_off a b → rank a < rank b.
Proof.
  induction 1 as [a b H|a b c H _ IH]; apply hands_off_next in H; lia.
Qed.

End Handoffs.

(** C2: each of the five hand-off functions has no parameter (so it is not
    handed the context either), and a call of it returns one fixed agent and
    leaves the whole state as it was, the context store and the
    conversation history in particular; a call with any argument is
    rejected before the body runs. *)
Theorem handoff_tools_are_pure (f : PyFunction) :
  f ∈ handoff_tools →
  fn_params f = []
  ∧ ∃ target : AgentRef, ∀ st : State,
      call f ∅ st = (Return (AgentObj target), st)
      ∧ context (call f ∅ st).2 = context st
      ∧ history (call f ∅ st).2 = history st
      ∧ ∀ kwargs, kwargs ≠ ∅ → call f kwargs st = (Raise TypeError, st).
Proof.
  unfold handoff_tools. rewrite !elem_of_cons, elem_of_nil.
  intros [->|[->|[->|[->|[->|[]]]]]]; (split; [reflexivity|]);
    eexists; intros st; unfold_transfers; rewrite call_def0;
    repeat split; intros kw Hkw; by apply call_def0_args.
Qed.

Lemma handoff_tools_are_pure_witness :
  transfer_to_planner ∈ handoff_tools
  ∧ fn_params transfer_to_planner = []
  ∧ call transfer_to_planner ∅ demo_state
    = (Return (AgentObj planner_agent), demo_state).
Proof.
  assert (transfer_to_planner ∈ handoff_tools) as Hin by apply list_elem_of_here.
  split; [exact Hin|].
  destruct (handoff_tools_are_pure transfer_to_planner Hin) as [Hp _].
  split; [exact Hp | reflexivity].
Defined.

(** C8: every agent of the roster has exactly one function; neither
    [transfer_to_admin] nor [complete_blog] is a function of any agent; an
    agent hands off to another exactly when the other is the next one in
    the order admin, planner, researcher, writer, editor; so every chain of
    hand-offs moves forward in that order and none returns to an agent
    that was active before. *)
Theorem handoff_graph_is_chain :
  (∀ a, a ∈ roster)
  ∧ (∀ a, ∃ f, functions (globals a) = [f])
  ∧ (∀ a f, f ∈ functions (globals a) →
       fn_name f ≠ "transfer_to_admin" ∧ fn_name f ≠ "complete_blog")
  ∧ (∀ a, (transfer_to_admin ∉ functions (globals a))
          ∧ (complete_blog ∉ functions (globals a)))
  ∧ (∀ a b, hands_off a b ↔ rank b = S (rank a))
  ∧ (∀ a b, tc hands_off a b → rank a < rank b)
  ∧ (∀ a b, rank b ≤ rank a → ¬ tc hands_off a b).
Proof.
  assert (∀ a f, f ∈ functions (globals a) →
            fn_name f ≠ "transfer_to_admin" ∧ fn_name f ≠ "complete_blog") as N.
  { intros a f Hin. destruct a; cbn [globals functions] in Hin;
      apply list_elem_of_singleton in Hin; subst f; by split. }
  split; [intros []; unfold roster; repeat constructor|].
  split; [intros []; eexists; reflexivity|].
  split; [exact N|].
  split; [intros a; split; intros Hin; by destruct (N _ _ Hin)|].
  split; [intros a b; split; [apply hands_off_next | apply next_hands_off]|].
  split; [apply tc_hands_off_rank|].
  intros a b Hle Htc. apply tc_hands_off_rank in Htc. lia.
Qed.

Lemma handoff_graph_is_chain_witness :
  hands_off writer_agent editor_agent
  ∧ fn_name transfer_to_editor ≠ "transfer_to_admin"
  ∧ ¬ tc hands_off editor_agent admin_agent.
Proof.
  destruct handoff_graph_is_chain as (_ & _ & N & _ & E & _ & B).
  split; [by apply E|].
  split; [apply (N writer_agent); apply list_elem_of_here|].
  apply B. cbn. lia.
Defined.

(** ** Sequences of hand-offs *)

Section Loop.

Lemma apply_outcome_history (o : ToolOutcome) (st : State) :
  history st `prefix_of` history (apply_outcome o st).
Proof.
  unfold apply_outcome. destruct (is_live st); [|done].
  destruct o; cbn; try done; by eexists.
Qed.

Lemma run_outcomes_app (os more : list ToolOutcome) (st : State) :
  run_outcomes (os ++ more) st = run_outcomes more (run_outcomes os st).
Proof. revert st; induction os as [|o os IH]; intros st; cbn; [done|apply IH]. Qed.

(** The history is append-only along any run of outcomes. *)
Lemma run_outcomes_history (os : list ToolOutcome) (st : State) :
  history st `prefix_of` history (run_outcomes os st).
Proof.
  revert st; induction os as [|o os IH]; intros st; cbn; [done|].
  etrans; [apply apply_outcome_history | apply IH].
Qed.

Lemma apply_handoff (b : AgentRef) (st : State) :
  is_live st = true →
  active (apply_outcome (Handoff b) st) = b
  ∧ is_live (apply_outcome (Handoff b) st) = true.
Proof. intros L. unfold apply_outcome. by rewrite L. Qed.

Lemma run_handoffs_active (targets : list AgentRef) (n : nat) (a : AgentRef)
    (st : State) :
  is_live st = true → targets !! n = Some a →
  active (run_outcomes (Handoff <$> take (S n) targets) st) = a.
Proof.
  revert n st; induction targets as [|t ts IH]; intros n st L H; [done|].
  destruct (apply_handoff t st L) as [A L'].
  destruct n as [|n]; cbn in H.
  - simplify_eq. cbn. by rewrite take_0.
  - cbn [take fmap list_fmap run_outcomes]. by apply IH.
Qed.

(** What a hand-off function returns does not depend on the state. *)
Lemma handoff_target_any_state (a : AgentRef) (st st' : State) :
  handoff_target a st = handoff_target a st'.
Proof.
  destruct a; unfold handoff_target; cbn [sole_tool globals functions];
    unfold_transfers; by rewrite ?call_def0, ?call_sink_no_args.
Qed.

Lemma handoff_chain_any_state (n : nat) (a : AgentRef) (st st' : State) :
  handoff_chain n a st = handoff_chain n a st'.
Proof.
  revert a; induction n as [|n IH]; intros a; cbn; [done|].
  rewrite (handoff_target_any_state a st st').
  destruct (handoff_target a st'); [by rewrite IH | done].
Qed.

Lemma drive_step_handoff (b : AgentRef) (st : State) :
  is_live st = true → handoff_target (active st) st = Some b →
  drive_step st = apply_outcome (Handoff b) st.
Proof.
  intros L H. unfold drive_step.
  destruct (active st) eqn:A; unfold handoff_target in H;
    cbn [sole_tool globals functions] in *; unfold_transfers;
    rewrite ?call_def0, ?call_sink_no_args in H; cbn in H; simplify_eq;
    (apply resolve_transfer; [done | by rewrite A]).
Qed.

(** As long as the chain goes on, the driven loop sees its hand-offs. *)
Lemma drive_follows_chain (n : nat) (st : State) :
  is_live st = true →
  length (handoff_chain n (active st) st) = n →
  drive n st = run_outcomes (Handoff <$> handoff_chain n (active st) st) st.
Proof.
  revert st; induction n as [|n IH]; intros st L H; [done|].
  cbn [handoff_chain drive] in *.
  destruct (handoff_target (active st) st) as [b|] eqn:T; [|done].
  cbn in H. cbn [fmap list_fmap run_outcomes].
  rewrite (drive_step_handoff b) by done.
  destruct (apply_handoff b st L) as [A L'].
  rewrite (handoff_chain_any_state n b st (apply_outcome (Handoff b) st)) in *.
  rewrite <- A at 2. apply IH; [done|]. rewrite A. lia.
Qed.

End Loop.

(** C1: along any sequence of hand-off outcomes of a live session the
    active agent after the first [n+1] of them is the target named by
    outcome [n], and the history never gets shorter as outcomes are
    processed.  In the notebook, following from admin the sole function of
    each active agent gives planner, researcher, writer, editor, and the
    loop driven that way from admin makes exactly these hand-offs. *)
Theorem handoff_sequence_tracks_targets :
  (∀ (targets : list AgentRef) (n : nat) (a : AgentRef) (st : State),
     is_live st = true → targets !! n = Some a →
     active (run_outcomes (Handoff <$> take (S n) targets) st) = a)
  ∧ (∀ (os more : list ToolOutcome) (st : State),
       length (history (run_outcomes os st))
       ≤ length (history (run_outcomes (os ++ more) st)))
  ∧ (∀ st, handoff_chain 4 admin_agent st
           = [planner_agent; researcher_agent; writer_agent; editor_agent])
  ∧ (∀ st, is_live st = true → active st = admin_agent →
       drive 4 st
       = run_outcomes
           (Handoff <$> [planner_agent; researcher_agent; writer_agent; editor_agent])
           st
       ∧ active <$> [drive 1 st; drive 2 st; drive 3 st; drive 4 st]
         = [planner_agent; researcher_agent; writer_agent; editor_agent]).
Proof.
  assert (∀ st, handoff_chain 4 admin_agent st
           = [planner_agent; researcher_agent; writer_agent; editor_agent]) as C.
  { intros st. cbn [handoff_chain]. unfold handoff_target.
    cbn [sole_tool globals functions]. unfold_transfers.
    by rewrite !call_def0. }
  split; [apply run_handoffs_active|].
  split; [intros os more st; rewrite run_outcomes_app;
          apply prefix_length, run_outcomes_history|].
  split; [exact C|].
  intros st L A.
  assert (∀ n, n ≤ 4 → drive n st
            = run_outcomes (Handoff <$> take n (handoff_chain 4 admin_agent st)) st) as D.
  { intros n Hn.
    assert (handoff_chain n (active st) st = take n (handoff_chain 4 admin_agent st)) as E.
    { rewrite A, C. clear -Hn. do 5 (destruct n as [|n]; [by rewrite ?C|]).
      lia. }
    rewrite <- E. apply drive_follows_chain; [done|].
    rewrite E, C, length_take. cbn. lia. }
  split.
  - rewrite (D 4) by lia. by rewrite C.
  - cbn [fmap list_fmap]. rewrite !D by lia. rewrite C.
    repeat (f_equal; [by apply run_handoffs_active|]).
    f_equal. by apply run_handoffs_active.
Qed.

Lemma handoff_sequence_tracks_targets_witness :
  is_live demo_state = true
  ∧ active demo_state = admin_agent
  ∧ [writer_agent; admin_agent; editor_agent] !! 1 = Some admin_agent
  ∧ active (run_outcomes
              (Handoff <$> take 2 [writer_agent; admin_agent; editor_agent])
              demo_state) = admin_agent
  ∧ active <$> [drive 1 demo_state; drive 2 demo_state; drive 3 demo_state;
                drive 4 demo_state]
    = [planner_agent; researcher_agent; writer_agent; editor_agent].
Proof.
  destruct handoff_sequence_tracks_targets as (T & _ & _ & D).
  split; [reflexivity|]. split; [reflexivity|]. split; [reflexivity|].
  split; [by apply T|].
  by apply D.
Defined.

(** * Further properties of the notebook's code *)

(** ** More facts about strings *)

Section MoreStringFacts.

Lemma chars_of_append (a b : string) :
  String.list_ascii_of_string (a +:+ b)
  = String.list_ascii_of_string a ++ String.list_ascii_of_string b.
Proof.
  induction a as [|c a IH]; [done|].
  change (String c a +:+ b) with (String c (a +:+ b)). cbn. by rewrite IH.
Qed.

Lemma chars_inj (a b : string) :
  String.list_ascii_of_string a = String.list_ascii_of_string b → a = b.
Proof.
  intros H. rewrite <- (String.string_of_list_ascii_of_string a),
    <- (String.string_of_list_ascii_of_string b). by rewrite H.
Qed.

Lemma append_inv_tail (a b s : string) : a +:+ s = b +:+ s → a = b.
Proof.
  intros H. apply chars_inj.
  apply (f_equal String.list_ascii_of_string) in H. rewrite !chars_of_append in H.
  by apply app_inv_tail in H.
Qed.

Lemma append_inv_head (p a b : string) : p +:+ a = p +:+ b → a = b.
Proof. apply (inj (String.app p)). Qed.

Lemma slug_char_idem (c : ascii) :
  let f := λ c, if Ascii.eqb c " " then "-"%char else ascii_lower c in
  f (f c) = f c.
Proof. by destruct c as [[] [] [] [] [] [] [] []]. Qed.

Lemma slug_char_fixed (c : ascii) :
  negb (Ascii.eqb c " ") && negb (is_upper c) = true →
  (if Ascii.eqb c " " then "-"%char else ascii_lower c) = c.
Proof. destruct c as [[] [] [] [] [] [] [] []]; vm_compute; congruence. Qed.

Lemma space_slug_fixed_chars (title : string) :
  all_chars (λ c, negb (Ascii.eqb c " ") && negb (is_upper c)) title = true →
  space_slug title = title.
Proof.
  unfold space_slug. induction title as [|c t IH]; [done|].
  cbn [all_chars map_chars]. intros [Hc Ht]%andb_true_iff.
  by rewrite slug_char_fixed, IH.
Qed.

Lemma space_slug_fixed (title : string) :
  is_slug title = true → space_slug title = title.
Proof.
  unfold is_slug. intros [_ H]%andb_true_iff. by apply space_slug_fixed_chars.
Qed.

Lemma space_slug_idem (title : string) :
  space_slug (space_slug title) = space_slug title.
Proof. apply space_slug_fixed_chars, space_slug_clean. Qed.

Lemma slug_char_ascii (c : ascii) :
  (N_of_ascii c <? 128)%N = true →
  (N_of_ascii (if Ascii.eqb c " " then "-"%char else ascii_lower c) <? 128)%N
  = true.
Proof. destruct c as [[] [] [] [] [] [] [] []]; vm_compute; congruence. Qed.

Lemma space_slug_ascii (title : string) :
  is_ascii title = true → is_ascii (space_slug title) = true.
Proof.
  unfold is_ascii, space_slug. induction title as [|c t IH]; [done|].
  cbn [all_chars map_chars]. intros [Hc Ht]%andb_true_iff.
  by rewrite slug_char_ascii, IH.
Qed.

Lemma all_chars_append (p : ascii → bool) (a b : string) :
  all_chars p (a +:+ b) = all_chars p a && all_chars p b.
Proof.
  induction a as [|c a IH]; [done|].
  change (String c a +:+ b) with (String c (a +:+ b)). cbn [all_chars].
  by rewrite IH, andb_assoc.
Qed.

Lemma slug_char_nul (c : ascii) :
  Ascii.eqb (if Ascii.eqb c " " then "-"%char else ascii_lower c) (ascii_of_nat 0)
  = Ascii.eqb c (ascii_of_nat 0).
Proof. by destruct c as [[] [] [] [] [] [] [] []]. Qed.

(** The file name has a null character exactly when the title has one. *)
Lemma artifact_name_nul (title : string) :
  has_nul (artifact_name title) = has_nul title.
Proof.
  unfold artifact_name. rewrite slug_of_code. unfold has_nul, has_char.
  rewrite all_chars_append. f_equal.
  change (all_chars _ ".md") with true. rewrite andb_true_r.
  unfold space_slug. induction title as [|c t IH]; [done|].
  cbn [all_chars map_chars]. by rewrite slug_char_nul, IH.
Qed.

Lemma artifact_name_slug (title : string) :
  artifact_name title = space_slug title +:+ ".md".
Proof. unfold artifact_name. by rewrite slug_of_code. Qed.

End MoreStringFacts.

(** ** The name of the file *)

(** X1: for ASCII titles, the path the sink opens is the same for two
    titles exactly when their identifiers are equal, and deriving the
    identifier is idempotent: a title, its lower-cased form, its form with
    hyphens for spaces and its own identifier are all opened under one
    path. *)
Theorem artifact_name_collisions (t1 t2 : string) :
  is_ascii t1 = true → is_ascii t2 = true →
  (artifact_name t1 = artifact_name t2 ↔ space_slug t1 = space_slug t2)
  ∧ is_ascii (space_slug t1) = true
  ∧ space_slug (space_slug t1) = space_slug t1
  ∧ artifact_name (space_slug t1) = artifact_name t1
  ∧ artifact_name (str_lower t1) = artifact_name t1
  ∧ artifact_name (str_replace " " "-" t1) = artifact_name t1.
Proof.
  intros A1 _. rewrite !artifact_name_slug.
  split; [|split; [by apply space_slug_ascii|split; [|split; [|split]]]].
  - split; [apply append_inv_tail | by intros ->].
  - apply space_slug_idem.
  - by rewrite space_slug_idem.
  - f_equal. unfold space_slug. clear A1. induction t1 as [|c t IH]; [done|].
    cbn [str_lower map_chars]. rewrite IH. f_equal.
    by destruct c as [[] [] [] [] [] [] [] []].
  - f_equal. unfold str_replace. rewrite replace_scan_space. unfold space_slug.
    clear A1. induction t1 as [|c t IH]; [done|].
    cbn [map_chars]. rewrite IH. f_equal.
    by destruct c as [[] [] [] [] [] [] [] []].
Qed.

Lemma artifact_name_collisions_witness :
  is_ascii "My Post" = true
  ∧ is_ascii "my-post" = true
  ∧ space_slug "My Post" = space_slug "my-post"
  ∧ artifact_name "My Post" = artifact_name "my-post".
Proof.
  split; [reflexivity|]. split; [reflexivity|]. split; [reflexivity|].
  by apply (artifact_name_collisions "My Post" "my-post").
Defined.

(** X2: an ASCII title without a space and without an upper-case letter
    is used as the file name unchanged, whatever else it contains:
    characters such as "/" and "." are not removed, so the file may be
    opened outside the working directory. *)
Theorem clean_title_is_the_name (title : string) :
  is_slug title = true →
  artifact_name title = title +:+ ".md"
  ∧ ∀ content st,
      open_calls (call complete_blog_post (sink_args (VStr title) content) st).2
      = open_calls st ++ [title +:+ ".md"].
Proof.
  intros H. rewrite artifact_name_slug, space_slug_fixed by done.
  split; [done|]. intros content st. rewrite call_sink. cbv zeta.
  rewrite artifact_name_slug, space_slug_fixed by done.
  destruct (writable st _); [destruct content|]; reflexivity.
Qed.

Lemma clean_title_is_the_name_witness :
  is_slug "../notes/x" = true
  ∧ artifact_name "../notes/x" = "../notes/x.md".
Proof.
  split; [reflexivity|].
  apply (clean_title_is_the_name "../notes/x"). reflexivity.
Defined.

(** ** Instruction generators, continued *)

(** X3: whatever value the context holds under "topic", the generators
    of the admin and of the planner follow its rendering: if the value
    renders (a string, a boolean, [None], an integer of at most 4300
    digits) both return instructions that contain the rendered text, and if
    it does not (a longer integer) both raise the error of the rendering
    and return nothing. *)
Theorem topic_rendered_in_prompts (c : gmap string value) (v : value) :
  c !! "topic" = Some v →
  match py_format v with
  | Return shown =>
      ∃ sa sp,
        admin_instructions c = Return sa
        ∧ planner_instructions c = Return sp
        ∧ str_contains shown sa = true
        ∧ str_contains shown sp = true
  | Raise e =>
      admin_instructions c = Raise e ∧ planner_instructions c = Raise e
  end.
Proof.
  intros H. unfold admin_instructions, planner_instructions, dict_get.
  rewrite H. cbn [default from_option id].
  destruct (py_format v) as [shown|e]; [|done].
  eexists _, _. split; [reflexivity|]. split; [reflexivity|].
  split; apply str_contains_middle.
Qed.

Lemma topic_rendered_in_prompts_witness :
  ({[ "topic" := VInt 42 ]} : gmap string value) !! "topic" = Some (VInt 42)
  ∧ ∃ sp, planner_instructions {[ "topic" := VInt 42 ]} = Return sp
          ∧ str_contains "42" sp = true.
Proof.
  split; [reflexivity|].
  pose proof (topic_rendered_in_prompts {[ "topic" := VInt 42 ]} (VInt 42) eq_refl)
    as H.
  assert (py_format (VInt 42) = Return "42") as E
    by (apply py_format_small_int; cbn; lia).
  rewrite E in H. destruct H as (sa & sp & _ & P & _ & C).
  exists sp. by split.
Defined.

(** X4: the instructions of every agent depend on the context only
    through the entry "topic": two contexts that agree on it give the same
    instructions, whatever other keys they hold. *)
Theorem instructions_depend_only_on_topic (a : AgentRef)
    (c1 c2 : gmap string value) :
  c1 !! "topic" = c2 !! "topic" →
  instructions (globals a) c1 = instructions (globals a) c2.
Proof.
  intros H. destruct a; cbn [globals instructions]; try reflexivity;
    unfold admin_instructions, planner_instructions, dict_get; by rewrite H.
Qed.

Lemma instructions_depend_only_on_topic_witness :
  let c1 : gmap string value := {[ "topic" := VStr "t"; "draft" := VStr "a" ]} in
  let c2 : gmap string value := {[ "topic" := VStr "t"; "notes" := VInt 7 ]} in
  c1 !! "topic" = c2 !! "topic"
  ∧ instructions (globals admin_agent) c1 = instructions (globals admin_agent) c2.
Proof.
  cbv zeta. split; [reflexivity|].
  apply instructions_depend_only_on_topic. reflexivity.
Defined.

(** X5: the instructions of the admin, and those of the planner, determine
    the rendering of the topic: two contexts give the same instructions
    exactly when their topics (or the default, when absent) render to the
    same text. *)
Theorem prompt_determines_topic (c1 c2 : gmap string value) :
  let topic := λ c, py_format (dict_get c "topic" (VStr "No topic provided")) in
  (admin_instructions c1 = admin_instructions c2 ↔ topic c1 = topic c2)
  ∧ (planner_instructions c1 = planner_instructions c2 ↔ topic c1 = topic c2).
Proof.
  cbv zeta. unfold admin_instructions, planner_instructions.
  destruct (py_format (dict_get c1 _ _)) as [s1|e1],
           (py_format (dict_get c2 _ _)) as [s2|e2];
    cbn [mbind outcome_bind mret outcome_ret];
    (split; split; intros H; try discriminate H; try (by simplify_eq)).
  - injection H as H. apply append_inv_head in H.
    by apply append_inv_tail in H as ->.
  - injection H as H. apply append_inv_head in H.
    by apply append_inv_tail in H as ->.
Qed.

(** ** The document sink, continued *)

Section MoreSink.

(** Keyword arguments with exactly the two parameter names. *)
Lemma kwargs_are_sink_args (kw : gmap string value) :
  dom kw = list_to_set ["title"; "content"] →
  ∃ title content, kw = sink_args title content.
Proof.
  intros H.
  assert (is_Some (kw !! "title")) as [v1 H1]
    by (apply elem_of_dom; rewrite H; set_solver).
  assert (is_Some (kw !! "content")) as [v2 H2]
    by (apply elem_of_dom; rewrite H; set_solver).
  exists v1, v2. apply map_eq; intros i. unfold sink_args.
  destruct (decide (i = "title")) as [->|]; [by rewrite lookup_insert_eq|].
  rewrite lookup_insert_ne by done.
  destruct (decide (i = "content")) as [->|]; [by rewrite lookup_singleton_eq|].
  rewrite lookup_singleton_ne by done.
  apply not_elem_of_dom. rewrite H. cbn.
  rewrite !not_elem_of_union, !elem_of_singleton. by auto using not_elem_of_empty.
Qed.

Lemma call_sink_bad_kwargs (kw : gmap string value) (st : State) :
  dom kw ≠ list_to_set ["title"; "content"] →
  call complete_blog_post kw st = (Raise TypeError, st).
Proof. intros H. unfold call. by rewrite bool_decide_eq_false_2. Qed.

(** Two successful calls in a row, as one update of the files. *)
Lemma call_sink_ok (t body : string) (st : State) :
  writable st (artifact_name t) = true →
  call complete_blog_post (sink_args (VStr t) (VStr body)) st
  = (Return (Str "Task completed"),
     set_stdout (λ l, l ++ [sink_line t])
       (set_fs (insert (artifact_name t) body)
          (set_open_calls (λ l, l ++ [artifact_name t]) st))).
Proof. intros W. rewrite call_sink. cbv zeta. by rewrite W. Qed.

End MoreSink.

(** X6: a call of the sink returns normally exactly when it is given
    exactly a title and a content, both strings, and the store accepts the
    derived file name; what it returns is then "Task completed". *)
Theorem sink_returns_exactly_when (kw : gmap string value) (st : State)
    (r : retval) :
  (call complete_blog_post kw st).1 = Return r
  ↔ ∃ t body,
      kw = sink_args (VStr t) (VStr body)
      ∧ writable st (artifact_name t) = true
      ∧ r = Str "Task completed".
Proof.
  split.
  - destruct (decide (dom kw = list_to_set ["title"; "content"])) as [D|D].
    + destruct (kwargs_are_sink_args kw D) as (title & content & ->).
      rewrite call_sink. destruct title as [t| | |]; try discriminate.
      cbv zeta. destruct (writable st (artifact_name t)) eqn:W; [|discriminate].
      destruct content as [body| | |]; try discriminate.
      cbn. intros [= <-]. by exists t, body.
    + by rewrite call_sink_bad_kwargs.
  - intros (t & body & -> & W & ->). by rewrite call_sink_ok.
Qed.

(** X7: errors in the arguments are raised before anything is touched: a
    missing or an extra keyword argument is a [TypeError], a title that is
    not a string is an [AttributeError] (whatever the content and the
    store), and in both cases the state is exactly as before: no file is
    opened, written or printed about. *)
Theorem sink_argument_errors_touch_nothing (kw : gmap string value)
    (title content : value) (st : State) :
  (dom kw ≠ list_to_set ["title"; "content"] →
   call complete_blog_post kw st = (Raise TypeError, st))
  ∧ (is_str title = false →
     call complete_blog_post (sink_args title content) st
     = (Raise AttributeError, st)).
Proof.
  split; [apply call_sink_bad_kwargs|].
  intros H. rewrite call_sink. by destruct title.
Qed.

Lemma sink_argument_errors_touch_nothing_witness :
  dom ({[ "title" := VStr "t" ]} : gmap string value)
    ≠ list_to_set ["title"; "content"]
  ∧ is_str (VInt 3) = false
  ∧ call complete_blog_post {[ "title" := VStr "t" ]} readonly_state
    = (Raise TypeError, readonly_state)
  ∧ call complete_blog_post (sink_args (VInt 3) (VStr "x")) demo_state
    = (Raise AttributeError, demo_state).
Proof.
  assert (dom ({[ "title" := VStr "t" ]} : gmap string value)
            ≠ list_to_set ["title"; "content"]) as D.
  { rewrite dom_singleton_L. intros E.
    assert ("content" ∈ ({[ "title" ]} : gset string)) as X%elem_of_singleton
      by (rewrite E; cbn; rewrite !elem_of_union, !elem_of_singleton; auto).
    discriminate X. }
  split; [exact D|]. split; [reflexivity|]. split.
  - by apply (sink_argument_errors_touch_nothing _ VNone VNone readonly_state).
  - by apply (sink_argument_errors_touch_nothing ∅ (VInt 3) (VStr "x") demo_state).
Defined.

(** X8: a content that is not a string is found out only after the file was
    opened: on a store that accepts the file the call raises [TypeError],
    prints nothing, and leaves the file empty, so a post that was there
    under that name is lost. *)
Theorem sink_bad_content_truncates (t : string) (content : value) (st : State) :
  is_str content = false →
  writable st (artifact_name t) = true →
  let r := call complete_blog_post (sink_args (VStr t) content) st in
  r.1 = Raise TypeError
  ∧ fs r.2 = <[artifact_name t := ""]> (fs st)
  ∧ fs r.2 !! artifact_name t = Some ""
  ∧ stdout r.2 = stdout st
  ∧ open_calls r.2 = open_calls st ++ [artifact_name t].
Proof.
  intros C W. cbv zeta. rewrite call_sink. cbv zeta. rewrite W.
  destruct content; try discriminate C; cbn; repeat split;
    apply lookup_insert_eq.
Qed.

Lemma sink_bad_content_truncates_witness :
  let st := set_fs (insert "post.md" "a finished post") demo_state in
  is_str VNone = false
  ∧ writable st (artifact_name "Post") = true
  ∧ fs st !! artifact_name "Post" = Some "a finished post"
  ∧ fs (call complete_blog_post (sink_args (VStr "Post") VNone) st).2
    !! artifact_name "Post" = Some "".
Proof.
  cbv zeta. split; [reflexivity|]. split; [reflexivity|]. split; [reflexivity|].
  eapply (sink_bad_content_truncates "Post" VNone); reflexivity.
Defined.

(** X15: a call that cannot open its file never looks at the content.
    With a string title without a null character, on a store that refuses
    the file, it raises [OSError] whatever the content is (a string or
    not); with a title that has a null character it raises [ValueError]
    whatever the store and the content are.  In both cases [open] was
    called once and files and printed lines are as before. *)
Theorem sink_refused_before_content (t : string) (content : value) (st : State) :
  let r := call complete_blog_post (sink_args (VStr t) content) st in
  (has_nul t = false → accepts st (artifact_name t) = false →
   r.1 = Raise OSError
   ∧ fs r.2 = fs st
   ∧ stdout r.2 = stdout st
   ∧ open_calls r.2 = open_calls st ++ [artifact_name t])
  ∧ (has_nul t = true →
     r.1 = Raise ValueError
     ∧ fs r.2 = fs st
     ∧ stdout r.2 = stdout st
     ∧ open_calls r.2 = open_calls st ++ [artifact_name t]).
Proof.
  cbv zeta. rewrite call_sink. cbv zeta. unfold writable.
  rewrite artifact_name_nul. split.
  - intros N A. by rewrite N, A.
  - intros N. by rewrite N.
Qed.

Lemma sink_refused_before_content_witness :
  let nul_title := "a" +:+ String (ascii_of_nat 0) "b" in
  has_nul "Post" = false
  ∧ accepts readonly_state (artifact_name "Post") = false
  ∧ has_nul nul_title = true
  ∧ (call complete_blog_post (sink_args (VStr "Post") (VInt 5)) readonly_state).1
    = Raise OSError
  ∧ (call complete_blog_post (sink_args (VStr nul_title) (VStr "x")) demo_state).1
    = Raise ValueError.
Proof.
  cbv zeta. split; [reflexivity|]. split; [reflexivity|]. split; [reflexivity|].
  split.
  - eapply (sink_refused_before_content "Post" (VInt 5) readonly_state);
      reflexivity.
  - eapply (sink_refused_before_content _ (VStr "x") demo_state). reflexivity.
Defined.

(** X9: whatever the arguments, a call of the sink leaves the session
    (active agent, context, history, state of the loop, error) and the
    permissions of the store as they were, prints at most one line and
    opens at most one file; if it opens none the files are unchanged, and
    if it opens one, every other file is unchanged. *)
Theorem sink_frame (kw : gmap string value) (st : State) :
  let r := call complete_blog_post kw st in
  active r.2 = active st
  ∧ context r.2 = context st
  ∧ history r.2 = history st
  ∧ phase r.2 = phase st
  ∧ failure r.2 = failure st
  ∧ writable r.2 = writable st
  ∧ (stdout r.2 = stdout st ∨ ∃ line, stdout r.2 = stdout st ++ [line])
  ∧ ((open_calls r.2 = open_calls st ∧ fs r.2 = fs st)
     ∨ ∃ p, open_calls r.2 = open_calls st ++ [p]
            ∧ ∀ q, q ≠ p → fs r.2 !! q = fs st !! q).
Proof.
  cbv zeta.
  destruct (decide (dom kw = list_to_set ["title"; "content"])) as [D|D].
  - destruct (kwargs_are_sink_args kw D) as (title & content & ->).
    rewrite call_sink. destruct title as [t| | |];
      try (repeat split; by auto). cbv zeta.
    destruct (writable st (artifact_name t)); [destruct content|]; cbn;
      repeat split; eauto; right; exists (artifact_name t);
      (split; [done|]); intros q Hq; try done;
      by rewrite lookup_insert_ne.
  - rewrite call_sink_bad_kwargs by done. repeat split; auto.
Qed.

(** X10: when two titles have the same file name, the second successful
    call replaces what the first wrote: the file holds the second content
    only, and the files are as if the first call had not been. *)
Theorem sink_last_write_wins (t1 t2 b1 b2 : string) (st : State) :
  artifact_name t1 = artifact_name t2 →
  writable st (artifact_name t1) = true →
  let r1 := call complete_blog_post (sink_args (VStr t1) (VStr b1)) st in
  let r2 := call complete_blog_post (sink_args (VStr t2) (VStr b2)) r1.2 in
  r1.1 = Return (Str "Task completed")
  ∧ r2.1 = Return (Str "Task completed")
  ∧ fs r2.2 !! artifact_name t1 = Some b2
  ∧ fs r2.2 = fs (call complete_blog_post (sink_args (VStr t2) (VStr b2)) st).2.
Proof.
  intros E W. cbv zeta.
  rewrite (call_sink_ok t1 b1 st W).
  rewrite (call_sink_ok t2 b2 st) by (by rewrite <- E).
  rewrite call_sink_ok by (by rewrite <- E).
  cbn. rewrite <- E. rewrite insert_insert_eq.
  repeat split. apply lookup_insert_eq.
Qed.

Lemma sink_last_write_wins_witness :
  artifact_name "My Post" = artifact_name "my-post"
  ∧ writable demo_state (artifact_name "My Post") = true
  ∧ fs (call complete_blog_post (sink_args (VStr "my-post") (VStr "second"))
          (call complete_blog_post (sink_args (VStr "My Post") (VStr "first"))
             demo_state).2).2
    !! artifact_name "My Post" = Some "second".
Proof.
  split; [reflexivity|]. split; [reflexivity|].
  eapply (sink_last_write_wins "My Post" "my-post" "first" "second" demo_state);
    reflexivity.
Defined.

(** X11: two posts whose titles are made of ASCII letters, digits, spaces,
    hyphens and underscores and have different file names do not disturb
    each other: on a store that accepts both, after the two calls in either
    order the files are the same and each file holds its own content. *)
Theorem sink_distinct_names_commute (t1 t2 b1 b2 : string) (st : State) :
  is_plain t1 = true → is_plain t2 = true →
  artifact_name t1 ≠ artifact_name t2 →
  writable st (artifact_name t1) = true →
  writable st (artifact_name t2) = true →
  let one_two :=
    call complete_blog_post (sink_args (VStr t2) (VStr b2))
      (call complete_blog_post (sink_args (VStr t1) (VStr b1)) st).2 in
  let two_one :=
    call complete_blog_post (sink_args (VStr t1) (VStr b1))
      (call complete_blog_post (sink_args (VStr t2) (VStr b2)) st).2 in
  fs one_two.2 = fs two_one.2
  ∧ fs one_two.2 !! artifact_name t1 = Some b1
  ∧ fs one_two.2 !! artifact_name t2 = Some b2
  ∧ one_two.1 = Return (Str "Task completed")
  ∧ two_one.1 = Return (Str "Task completed").
Proof.
  intros _ _ N W1 W2. cbv zeta.
  rewrite (call_sink_ok t1 b1 st W1), (call_sink_ok t2 b2 st W2).
  rewrite !call_sink_ok by done. cbn.
  split; [by apply insert_insert_ne|].
  split; [by rewrite lookup_insert_ne, lookup_insert_eq|].
  split; [apply lookup_insert_eq|]. done.
Qed.

Lemma sink_distinct_names_commute_witness :
  is_plain "One" = true
  ∧ is_plain "Two" = true
  ∧ artifact_name "One" ≠ artifact_name "Two"
  ∧ writable demo_state (artifact_name "One") = true
  ∧ writable demo_state (artifact_name "Two") = true
  ∧ fs (call complete_blog_post (sink_args (VStr "Two") (VStr "b"))
          (call complete_blog_post (sink_args (VStr "One") (VStr "a"))
             demo_state).2).2
    = fs (call complete_blog_post (sink_args (VStr "One") (VStr "a"))
            (call complete_blog_post (sink_args (VStr "Two") (VStr "b"))
               demo_state).2).2.
Proof.
  assert (artifact_name "One" ≠ artifact_name "Two") as N by (vm_compute; discriminate).
  split; [reflexivity|]. split; [reflexivity|].
  split; [exact N|]. split; [reflexivity|]. split; [reflexivity|].
  by apply (sink_distinct_names_commute "One" "Two" "a" "b" demo_state).
Defined.

(** ** The roster, continued *)

(** X12: [complete_blog] gives the acknowledgment of the sink without
    persisting anything: a call returns "Task completed" and leaves the
    state as it was, and, having no parameter, it raises [TypeError] when it
    is given the title and content the sink takes. *)
Theorem complete_blog_persists_nothing (title content : value) (st : State) :
  call complete_blog ∅ st = (Return (Str "Task completed"), st)
  ∧ call complete_blog (sink_args title content) st = (Raise TypeError, st)
  ∧ ∀ t body,
      writable st (artifact_name t) = true →
      let r := call complete_blog_post (sink_args (VStr t) (VStr body)) st in
      r.1 = (call complete_blog ∅ st).1
      ∧ fs r.2 !! artifact_name t = Some body
      ∧ fs (call complete_blog ∅ st).2 = fs st.
Proof.
  unfold complete_blog. rewrite call_def0. split; [done|]. split.
  - apply call_def0_args. intros E.
    apply (f_equal (lookup "title")) in E. unfold sink_args in E.
    by rewrite lookup_insert_eq, lookup_empty in E.
  - intros t body W. cbv zeta. rewrite call_sink_ok by done. cbn.
    repeat split. apply lookup_insert_eq.
Qed.

Lemma complete_blog_persists_nothing_witness :
  writable demo_state (artifact_name "A") = true
  ∧ (call complete_blog_post (sink_args (VStr "A") (VStr "b")) demo_state).1
    = (call complete_blog ∅ demo_state).1.
Proof.
  split; [reflexivity|].
  eapply (complete_blog_persists_nothing VNone VNone demo_state). reflexivity.
Defined.

(** X13: the hand-offs form one path through the whole roster: an agent
    hands off to at most one agent, nobody hands off to the admin, the
    editor hands off to nobody, every other agent is reachable from the
    admin, and from every other agent the editor is reachable. *)
Theorem handoffs_form_one_path :
  (∀ a b b', hands_off a b → hands_off a b' → b = b')
  ∧ (∀ a, ¬ hands_off a admin_agent)
  ∧ (∀ b, ¬ hands_off editor_agent b)
  ∧ (∀ a, a ≠ admin_agent → tc hands_off admin_agent a)
  ∧ (∀ a, a ≠ editor_agent → tc hands_off a editor_agent).
Proof.
  assert (∀ a b, rank b = S (rank a) → tc hands_off a b) as Step
    by (intros a b H; by apply tc_once, next_hands_off).
  split; [|split; [|split; [|split]]].
  - intros a b b' H H'. apply hands_off_next in H, H'.
    destruct b, b'; cbn in *; congruence.
  - intros a H%hands_off_next. discriminate H.
  - intros b H%hands_off_next. destruct b; discriminate H.
  - intros a Ha. destruct a; [done| | | |].
    + by apply Step.
    + etrans; [by apply (Step admin_agent planner_agent)|]. by apply Step.
    + etrans; [by apply (Step admin_agent planner_agent)|].
      etrans; [by apply (Step planner_agent researcher_agent)|]. by apply Step.
    + etrans; [by apply (Step admin_agent planner_agent)|].
      etrans; [by apply (Step planner_agent researcher_agent)|].
      etrans; [by apply (Step researcher_agent writer_agent)|]. by apply Step.
  - intros a Ha. destruct a; [| | | |done].
    + etrans; [by apply (Step admin_agent planner_agent)|].
      etrans; [by apply (Step planner_agent researcher_agent)|].
      etrans; [by apply (Step researcher_agent writer_agent)|]. by apply Step.
    + etrans; [by apply (Step planner_agent researcher_agent)|].
      etrans; [by apply (Step researcher_agent writer_agent)|]. by apply Step.
    + etrans; [by apply (Step researcher_agent writer_agent)|]. by apply Step.
    + by apply Step.
Qed.

Lemma handoffs_form_one_path_witness :
  writer_agent ≠ admin_agent
  ∧ tc hands_off admin_agent writer_agent
  ∧ tc hands_off writer_agent editor_agent.
Proof.
  destruct handoffs_form_one_path as (_ & _ & _ & R & E).
  split; [discriminate|]. split; [by apply R | by apply E].
Defined.

(** X14: from any agent, following sole hand-off functions for at most [n]
    steps visits the agents that come after it in the roster, one position
    further at each step, and stops at the editor: the chain has
    [min n (4 - rank a)] agents, and the one at index [i] has rank
    [rank a + i + 1]. *)
Theorem handoff_chain_shape (n : nat) (a : AgentRef) (st : State) :
  length (handoff_chain n a st) = n `min` (4 - rank a)
  ∧ ∀ i b, handoff_chain n a st !! i = Some b → rank b = rank a + S i.
Proof.
  revert a; induction n as [|n IH]; intros a; [by split|].
  cbn [handoff_chain].
  destruct a; unfold handoff_target; cbn [sole_tool globals functions];
    unfold_transfers; rewrite ?call_def0, ?call_sink_no_args; cbn [fst];
    try (split; [done | by intros i b H]);
    match goal with
    | |- context [handoff_chain n ?b st] => destruct (IH b) as [L R]
    end;
    (split; [cbn [length]; rewrite L; cbn; lia|]);
    intros [|i] b H; cbn in H; simplify_eq; try done;
    apply R in H; cbn in *; lia.
Qed.
